(** * Black-hole simulation: the physics integrator and the capture logic

    A shallow embedding of [blackhole-sim.py]: the [Particle] class with its
    [update] method, the particle set-up and the tick loop of
    [run_simulation] (the plotting calls are left out: they read the
    particles and never write them).

    Numbers.  The program computes on numpy [float64] values.  The program
    is embedded twice, statement by statement the same:

    - over [num], the real numbers extended with one non-number [NaN].
      This arithmetic does not round, underflow or overflow, and it has no
      infinities.  It carries the general theorems, which are stated so
      that they read the same on [float64]: they rest on the control flow,
      on the guards and comparisons as the program evaluates them, on the
      way [nan] spreads, and on operations that are exact in [float64] as
      well (times [1.0], over [1.0], [0/0]).  Where a theorem names a
      condition such as [r_mag != 0], it is the test the program makes,
      not the exact geometry.  Sample runs over [num] use data on which
      binary64 is exact as well;

    - over binary64 itself, in module [F64], with the primitive floats.
      It evaluates the program on concrete inputs and shows what rounding,
      underflow and overflow do to it. *)

From Stdlib Require Import Reals Lra Lia List Bool.
From Corelib Require PrimFloat.
Import ListNotations.

Open Scope R_scope.

(** ** Scalars *)

Inductive num : Type :=
| Fin (r : R)
| NaN.

Definition nadd (a b : num) : num :=
  match a, b with
  | Fin x, Fin y => Fin (x + y)
  | _, _ => NaN
  end.

Definition nsub (a b : num) : num :=
  match a, b with
  | Fin x, Fin y => Fin (x - y)
  | _, _ => NaN
  end.

Definition nmul (a b : num) : num :=
  match a, b with
  | Fin x, Fin y => Fin (x * y)
  | _, _ => NaN
  end.

(** [a / b].  numpy gives [nan] for [0 / 0] and for any [nan] operand, and
    an infinity for a non-zero finite [a] over [0].  [num] has no
    infinities: that last case gives [NaN] here, to be read as "not a
    finite number".  In binary64 [update] does reach it, when a squared
    norm underflows to [0] (see [F64] and [f64_nonzero_velocity_zero_norm]);
    the theorems over [num] therefore speak of "not finite" wherever a
    divisor may be [0] with a dividend that is not. *)
Definition ndiv (a b : num) : num :=
  match a, b with
  | Fin x, Fin y => if Req_dec_T y 0 then NaN else Fin (x / y)
  | _, _ => NaN
  end.

(** [np.sqrt]: [nan] on a negative argument. *)
Definition nsqrt (a : num) : num :=
  match a with
  | Fin x => if Rlt_dec x 0 then NaN else Fin (sqrt x)
  | NaN => NaN
  end.

(** [a == b]: false as soon as one side is [nan]. *)
Definition neqb (a b : num) : bool :=
  match a, b with
  | Fin x, Fin y => if Req_dec_T x y then true else false
  | _, _ => false
  end.

(** [a < b]: false as soon as one side is [nan]. *)
Definition nltb (a b : num) : bool :=
  match a, b with
  | Fin x, Fin y => if Rlt_dec x y then true else false
  | _, _ => false
  end.

(** ** Two-component arrays *)

Definition vec : Type := (num * num)%type.

Definition vfin (x y : R) : vec := (Fin x, Fin y).

Definition vadd (u v : vec) : vec := (nadd (fst u) (fst v), nadd (snd u) (snd v)).
Definition vsub (u v : vec) : vec := (nsub (fst u) (fst v), nsub (snd u) (snd v)).
(** array times scalar, array over scalar, scalar times array: broadcast *)
Definition vmuls (u : vec) (k : num) : vec := (nmul (fst u) k, nmul (snd u) k).
Definition vdivs (u : vec) (k : num) : vec := (ndiv (fst u) k, ndiv (snd u) k).
Definition smulv (k : num) (u : vec) : vec := (nmul k (fst u), nmul k (snd u)).

(** [np.linalg.norm] of a 1-d array: the square root of its dot product
    with itself.  Over [num] it is [0] for the zero vector only; in
    binary64 the dot product also underflows to [0] and overflows to an
    infinity ([F64.norm]). *)
Definition norm (u : vec) : num :=
  nsqrt (nadd (nmul (fst u) (fst u)) (nmul (snd u) (snd u))).

(** ** Configuration: the module-level constants *)

Definition G : num := Fin 1.
Definition M : num := Fin 1000.
Definition C : num := Fin 15.
Definition TIME_STEP : num := Fin (1 / 10).
Definition STEPS : nat := 1000.

(** ** class Particle *)

Record Particle : Type := mkParticle {
  pos : vec;
  vel : vec;
  mass : num;
  path : list vec;
  is_captured : bool;
  is_photon : bool
}.

(** [Particle.__init__]; [mass] and [is_photon] default to [1.0] and
    [False] at the call sites that omit them. *)
Definition new_Particle (p v : vec) (m : num) (photon : bool) : Particle :=
  {| pos := p; vel := v; mass := m; path := [p];
     is_captured := false; is_photon := photon |}.

(** The stages of [update], in the order of the method body. *)

Definition r_vec_of (black_hole_pos : vec) (p : Particle) : vec :=
  vsub black_hole_pos (pos p).

Definition acceleration_of (black_hole_pos : vec) (p : Particle) : vec :=
  let r_vec := r_vec_of black_hole_pos p in
  let r_mag := norm r_vec in
  let force_mag := ndiv (nmul (nmul G M) (mass p)) (nmul r_mag r_mag) in
  let force_vec := smulv force_mag (vdivs r_vec r_mag) in
  vdivs force_vec (mass p).

(** the velocity after [self.vel += acceleration * dt] *)
Definition kicked_vel (dt : num) (black_hole_pos : vec) (p : Particle) : vec :=
  vadd (vel p) (vmuls (acceleration_of black_hole_pos p) dt).

(** the photon speed correction: [(vel / norm(vel)) * C] *)
Definition photon_correct (v : vec) : vec :=
  vmuls (vdivs v (norm v)) C.

(** [Particle.update] *)
Definition update (dt : num) (black_hole_pos : vec) (p : Particle) : Particle :=
  if is_captured p then p
  else
    let r_vec := vsub black_hole_pos (pos p) in
    let r_mag := norm r_vec in
    if neqb r_mag (Fin 0) then p
    else
      let force_mag := ndiv (nmul (nmul G M) (mass p)) (nmul r_mag r_mag) in
      let force_vec := smulv force_mag (vdivs r_vec r_mag) in
      let acceleration := vdivs force_vec (mass p) in
      let vel1 := vadd (vel p) (vmuls acceleration dt) in
      let vel2 := if is_photon p then photon_correct vel1 else vel1 in
      let pos1 := vadd (pos p) (vmuls vel2 dt) in
      {| pos := pos1; vel := vel2; mass := mass p;
         path := path p ++ [pos1];
         is_captured := is_captured p; is_photon := is_photon p |}.

(** ** run_simulation *)

Definition black_hole_pos : vec := vfin 0 0.

Definition schwarzschild_radius : num :=
  ndiv (nmul (nmul (Fin 2) G) M) (nmul C C).

(** An entry of [PARTICLES]: ["pos"] is a two-element list whose second
    element may be [None]; ["offset_factor"] may be absent. *)
Record descriptor : Type := mkDescriptor {
  d_pos : num * option num;
  d_vel : vec;
  d_is_photon : bool;
  d_offset_factor : option num
}.

(** [np.array(pos, dtype=float)] turns a [None] element into [nan]. *)
Definition to_float (o : option num) : num :=
  match o with
  | Some y => y
  | None => NaN
  end.

(** One round of the set-up loop: resolve the position, build the particle. *)
Definition init_particle (d : descriptor) : Particle :=
  let pos0 :=
    match d_offset_factor d with
    | Some f => (fst (d_pos d), Some (nmul schwarzschild_radius f))
    | None => d_pos d
    end in
  new_Particle (fst pos0, to_float (snd pos0)) (d_vel d) (Fin 1) (d_is_photon d).

(** The capture test at the head of the inner loop body. *)
Definition capture_test (p : Particle) : Particle :=
  let dist_to_bh := norm (vsub (pos p) black_hole_pos) in
  if nltb dist_to_bh schwarzschild_radius then
    {| pos := pos p; vel := vel p; mass := mass p; path := path p;
       is_captured := true; is_photon := is_photon p |}
  else p.

(** The inner loop body for one particle: the test, then the update. *)
Definition tick (p : Particle) : Particle :=
  update TIME_STEP black_hole_pos (capture_test p).

(** One pass of the outer loop over all particles. *)
Definition step_all (ps : list Particle) : list Particle := map tick ps.

Fixpoint ticks (n : nat) (p : Particle) : Particle :=
  match n with
  | O => p
  | S n' => ticks n' (tick p)
  end.

Fixpoint run_steps (n : nat) (ps : list Particle) : list Particle :=
  match n with
  | O => ps
  | S n' => run_steps n' (step_all ps)
  end.

(** [run_simulation] for a given descriptor list and number of steps; the
    program runs it on [PARTICLES] and [STEPS]. *)
Definition run_simulation_with (descs : list descriptor) (steps : nat) : list Particle :=
  run_steps steps (map init_particle descs).

Definition PARTICLES : list descriptor :=
  [ mkDescriptor (Fin 100, Some (Fin 0)) (vfin 0 (75 / 10)) false None;
    mkDescriptor (Fin (-110), Some (Fin 0)) (vfin 0 (-7)) false None;
    mkDescriptor (Fin 0, Some (Fin 130)) (vfin (-65 / 10) 0) false None;
    mkDescriptor (Fin 0, Some (Fin (-140))) (vfin 6 0) false None;
    mkDescriptor (Fin (-250), Some (Fin 50)) (vfin 7 0) false None;
    mkDescriptor (Fin (-250), None) (C, Fin 0) true (Some (Fin (15 / 10)));
    mkDescriptor (Fin (-250), None) (C, Fin 0) true (Some (Fin (8 / 10))) ].

Definition run_simulation : list Particle :=
  run_simulation_with PARTICLES STEPS.

(** ** The Euler step in the words of the specification *)

(** The explicit-Euler velocity in the words of the specification:
    [velocity + (G*M/r_mag^2) * (r_vec/r_mag) * dt], with no mass in it. *)
Definition euler_velocity (dt : num) (bh : vec) (p : Particle) : vec :=
  let r_vec := vsub bh (pos p) in
  let r_mag := norm r_vec in
  vadd (vel p)
       (vmuls (smulv (ndiv (nmul G M) (nmul r_mag r_mag)) (vdivs r_vec r_mag)) dt).

(** ** Sample data *)

(** a particle already captured, two steps into its path *)
Definition captured_sample : Particle :=
  {| pos := vfin 3 4; vel := vfin 1 2; mass := Fin 1;
     path := [vfin 2 3; vfin 3 4]; is_captured := true; is_photon := false |}.

(** an active particle placed on the body *)
Definition sample_on_body : Particle :=
  new_Particle (vfin 0 0) (vfin 3 (-2)) (Fin 1) false.

(** the particle at [(8, 0)] at rest: inside the horizon radius *)
Definition particle_at_8_0 : Particle :=
  new_Particle (vfin 8 0) (vfin 0 0) (Fin 1) false.

(** the first photon entry of [PARTICLES] *)
Definition photon_descriptor : descriptor :=
  mkDescriptor (Fin (-250), None) (C, Fin 0) true (Some (Fin (15 / 10))).

(** the first entry of [PARTICLES], as a particle *)
Definition orbiter : Particle :=
  new_Particle (vfin 100 0) (vfin 0 (75 / 10)) (Fin 1) false.

(** a photon whose gravity update leaves the velocity [(3, 4)] *)
Definition photon_3_4 : Particle :=
  new_Particle (vfin 10 0) (vfin 4 4) (Fin 1) true.


(** a particle built with mass [0] *)
Definition massless_sample : Particle :=
  new_Particle (vfin 10 0) (vfin 1 2) (Fin 0) false.

(** a descriptor whose vertical position is [None] and that carries no
    [offset_factor] *)
Definition unresolved_descriptor : descriptor :=
  mkDescriptor (Fin (-250), None) (C, Fin 0) true None.

(** ** Finite values *)

Definition is_finite (a : num) : bool :=
  match a with
  | Fin _ => true
  | NaN => false
  end.

Definition vfinite (v : vec) : bool := is_finite (fst v) && is_finite (snd v).

(** ** The program over binary64 *)

(** The same definitions on primitive floats: [+], [-], [*], [/] and
    [sqrt] round to nearest as numpy's do, [=?] and [<?] are false on
    [nan], and [x ** 2] is [x * x]. *)
Module F64.

Import PrimFloat.
Local Open Scope float_scope.

Definition vec : Type := (float * float)%type.

Definition vadd (u v : vec) : vec := (fst u + fst v, snd u + snd v).
Definition vsub (u v : vec) : vec := (fst u - fst v, snd u - snd v).
Definition vmuls (u : vec) (k : float) : vec := (fst u * k, snd u * k).
Definition vdivs (u : vec) (k : float) : vec := (fst u / k, snd u / k).
Definition smulv (k : float) (u : vec) : vec := (k * fst u, k * snd u).

Definition norm (u : vec) : float := sqrt (fst u * fst u + snd u * snd u).

Definition G : float := 1.
Definition M : float := 1000.
Definition C : float := 15.
(** [0.1]: the binary64 number nearest to it *)
Definition TIME_STEP : float := 0x1.999999999999ap-4.

Record Particle : Type := mkParticle {
  pos : vec;
  vel : vec;
  mass : float;
  path : list vec;
  is_captured : bool;
  is_photon : bool
}.

Definition new_Particle (p v : vec) (m : float) (photon : bool) : Particle :=
  {| pos := p; vel := v; mass := m; path := [p];
     is_captured := false; is_photon := photon |}.

Definition acceleration_of (black_hole_pos : vec) (p : Particle) : vec :=
  let r_vec := vsub black_hole_pos (pos p) in
  let r_mag := norm r_vec in
  let force_mag := (G * M * mass p) / (r_mag * r_mag) in
  let force_vec := smulv force_mag (vdivs r_vec r_mag) in
  vdivs force_vec (mass p).

Definition kicked_vel (dt : float) (black_hole_pos : vec) (p : Particle) : vec :=
  vadd (vel p) (vmuls (acceleration_of black_hole_pos p) dt).

Definition photon_correct (v : vec) : vec :=
  vmuls (vdivs v (norm v)) C.

Definition update (dt : float) (black_hole_pos : vec) (p : Particle) : Particle :=
  if is_captured p then p
  else
    let r_vec := vsub black_hole_pos (pos p) in
    let r_mag := norm r_vec in
    if r_mag =? 0 then p
    else
      let force_mag := (G * M * mass p) / (r_mag * r_mag) in
      let force_vec := smulv force_mag (vdivs r_vec r_mag) in
      let acceleration := vdivs force_vec (mass p) in
      let vel1 := vadd (vel p) (vmuls acceleration dt) in
      let vel2 := if is_photon p then photon_correct vel1 else vel1 in
      let pos1 := vadd (pos p) (vmuls vel2 dt) in
      {| pos := pos1; vel := vel2; mass := mass p;
         path := path p ++ [pos1];
         is_captured := is_captured p; is_photon := is_photon p |}.

Definition black_hole_pos : vec := (0, 0).

Definition schwarzschild_radius : float := (2 * G * M) / (C * C).

Definition capture_test (p : Particle) : Particle :=
  let dist_to_bh := norm (vsub (pos p) black_hole_pos) in
  if dist_to_bh <? schwarzschild_radius then
    {| pos := pos p; vel := vel p; mass := mass p; path := path p;
       is_captured := true; is_photon := is_photon p |}
  else p.

Definition tick (p : Particle) : Particle :=
  update TIME_STEP black_hole_pos (capture_test p).

(** *** Sample data *)

(** a photon at rest [2^500] away from the body *)
Definition far_photon : Particle := new_Particle (0x1p500, 0) (0, 0) 1 true.

(** the first photon of [PARTICLES], as the set-up builds it *)
Definition first_photon : Particle :=
  new_Particle (-250, schwarzschild_radius * 1.5) (C, 0) 1 true.

(** the first entry of [PARTICLES] with mass [1.0], [3.0] and [2^1020] *)
Definition orbiter_of_mass (m : float) : Particle :=
  new_Particle (100, 0) (0, 7.5) m false.

Definition unit_orbiter : Particle := orbiter_of_mass 1.
Definition triple_orbiter : Particle := orbiter_of_mass 3.
Definition heavy_orbiter : Particle := orbiter_of_mass 0x1p1020.

(** a particle [2^-600] away from the body *)
Definition near_body : Particle := new_Particle (0x1p-600, 0) (1, 2) 1 false.

End F64.

(** ** Scalars and arrays: basic facts *)

Lemma neqb_fin (x y : R) : neqb (Fin x) (Fin y) = true <-> x = y.
Proof.
  unfold neqb. destruct (Req_dec_T x y) as [e | ne]; split; intro H;
    congruence.
Qed.

Lemma neqb_true (a b : num) :
  neqb a b = true -> exists x, a = Fin x /\ b = Fin x.
Proof.
  destruct a as [x |], b as [y |]; simpl; try discriminate.
  destruct (Req_dec_T x y) as [e | ne]; [| discriminate].
  intros _. exists x. now subst.
Qed.

Lemma nltb_fin (x y : R) : nltb (Fin x) (Fin y) = true <-> x < y.
Proof.
  unfold nltb. destruct (Rlt_dec x y) as [l | nl]; split; intro H;
    try reflexivity; try assumption; try discriminate; contradiction.
Qed.

Lemma ndiv_fin (x y : R) : y <> 0 -> ndiv (Fin x) (Fin y) = Fin (x / y).
Proof.
  intro Hy. unfold ndiv. destruct (Req_dec_T y 0); [contradiction | reflexivity].
Qed.

Lemma ndiv_zero (a : num) : ndiv a (Fin 0) = NaN.
Proof.
  destruct a as [x |]; simpl; [| reflexivity].
  destruct (Req_dec_T 0 0) as [_ | ne]; [reflexivity | now elim ne].
Qed.

Lemma ndiv_nan_r (a : num) : ndiv a NaN = NaN.
Proof. now destruct a. Qed.

Lemma nmul_nan_r (a : num) : nmul a NaN = NaN.
Proof. now destruct a. Qed.

Lemma nadd_nan_r (a : num) : nadd a NaN = NaN.
Proof. now destruct a. Qed.

Lemma sum_squares_nonneg (x y : R) : 0 <= x * x + y * y.
Proof. nra. Qed.

Lemma nsqrt_fin (x : R) : 0 <= x -> nsqrt (Fin x) = Fin (sqrt x).
Proof.
  intro Hx. unfold nsqrt. destruct (Rlt_dec x 0); [lra | reflexivity].
Qed.

Lemma norm_vfin (x y : R) : norm (vfin x y) = Fin (sqrt (x * x + y * y)).
Proof. unfold norm, vfin; simpl. apply nsqrt_fin, sum_squares_nonneg. Qed.

(** A finite norm comes from finite components only. *)
Lemma norm_fin_inv (u : vec) (r : R) :
  norm u = Fin r ->
  exists x y, u = vfin x y /\ r = sqrt (x * x + y * y) /\ 0 <= r.
Proof.
  destruct u as [[x |] [y |]]; try discriminate.
  change (norm (vfin x y) = Fin r -> exists x0 y0,
    vfin x y = vfin x0 y0 /\ r = sqrt (x0 * x0 + y0 * y0) /\ 0 <= r).
  rewrite norm_vfin.
  intro H; injection H as <-. exists x, y. repeat split. apply sqrt_pos.
Qed.

Lemma norm_of_zero : norm (vfin 0 0) = Fin 0.
Proof.
  rewrite norm_vfin. f_equal. replace (0 * 0 + 0 * 0) with 0 by ring.
  apply sqrt_0.
Qed.

Lemma norm_vsub_swap (u v : vec) : norm (vsub u v) = norm (vsub v u).
Proof.
  destruct u as [[a |] [b |]], v as [[c |] [d |]]; try reflexivity.
  change (norm (vfin (a - c) (b - d)) = norm (vfin (c - a) (d - b))).
  rewrite !norm_vfin. do 2 f_equal. ring.
Qed.

Lemma sqrt_of_square (x y : R) : 0 <= y -> y * y = x -> sqrt x = y.
Proof. intros Hy <-. now apply sqrt_square. Qed.

Lemma schwarzschild_radius_value : schwarzschild_radius = Fin (2000 / 225).
Proof.
  unfold schwarzschild_radius, G, M, C; simpl.
  destruct (Req_dec_T (15 * 15) 0) as [e | _]; [lra |].
  f_equal. lra.
Qed.

(** With mass [0] the force, the dividend of the division by the mass, is
    [0] or [nan]. *)
Lemma massless_force_component (a : num) (r : R) :
  r <> 0 ->
  let f := nmul (ndiv (nmul (nmul G M) (Fin 0)) (Fin (r * r))) (ndiv a (Fin r)) in
  f = Fin 0 \/ f = NaN.
Proof.
  intros Hr f. subst f. unfold G, M. cbn [nmul].
  rewrite ndiv_fin by nra. destruct a as [x |]; [| now right].
  rewrite (ndiv_fin x r Hr). cbn [nmul]. left. f_equal. field. exact Hr.
Qed.

Lemma neqb_fin_false (r : R) : r <> 0 -> neqb (Fin r) (Fin 0) = false.
Proof.
  intro Hr. destruct (neqb (Fin r) (Fin 0)) eqn:E; [| reflexivity].
  apply neqb_fin in E. contradiction.
Qed.

(** Multiplying by [1.0] and dividing by [1.0] change nothing, in binary64
    as here. *)
Lemma nmul_one_r (a : num) : nmul a (Fin 1) = a.
Proof. destruct a as [x |]; [| reflexivity]. simpl. f_equal. ring. Qed.

Lemma ndiv_one_r (a : num) : ndiv a (Fin 1) = a.
Proof.
  destruct a as [x |]; [| reflexivity].
  rewrite ndiv_fin by exact R1_neq_R0. f_equal. field.
Qed.

Lemma vdivs_one (u : vec) : vdivs u (Fin 1) = u.
Proof. unfold vdivs. rewrite !ndiv_one_r. now destruct u. Qed.

(** the distance of the body from a point on the positive x axis *)
Lemma norm_from_origin_x (x : R) :
  0 < x -> norm (vsub (vfin 0 0) (vfin x 0)) = Fin x.
Proof.
  intro Hx. change (norm (vfin (0 - x) (0 - 0)) = Fin x).
  rewrite norm_vfin. f_equal. apply sqrt_of_square; [lra | ring].
Qed.

Lemma vfinite_inv (v : vec) : vfinite v = true -> exists x y, v = vfin x y.
Proof.
  destruct v as [[x |] [y |]]; try discriminate. intros _. now exists x, y.
Qed.

Lemma norm_of_nan (u : vec) : vfinite u = false -> norm u = NaN.
Proof. destruct u as [[x |] [y |]]; try discriminate; reflexivity. Qed.

Lemma vsub_of_nan_l (u v : vec) : vfinite u = false -> vfinite (vsub u v) = false.
Proof.
  destruct u as [[a |] [b |]], v as [[c |] [d |]]; try discriminate; reflexivity.
Qed.

Lemma vsub_of_nan_r (u v : vec) : vfinite v = false -> vfinite (vsub u v) = false.
Proof.
  destruct u as [[a |] [b |]], v as [[c |] [d |]]; try discriminate; reflexivity.
Qed.

Lemma vadd_nan_r (u : vec) : vadd u (NaN, NaN) = (NaN, NaN).
Proof. unfold vadd. cbn [fst snd]. now rewrite !nadd_nan_r. Qed.

Lemma vdivs_zero (u : vec) : vdivs u (Fin 0) = (NaN, NaN).
Proof. unfold vdivs. now rewrite !ndiv_zero. Qed.

(** What [update] leaves once the acceleration is [nan]. *)

(** ** [update]: the three ways through the method *)

Lemma update_when_captured (dt : num) (bh : vec) (p : Particle) :
  is_captured p = true -> update dt bh p = p.
Proof. intro H. unfold update. now rewrite H. Qed.

Lemma update_when_coincident (dt : num) (bh : vec) (p : Particle) :
  neqb (norm (vsub bh (pos p))) (Fin 0) = true -> update dt bh p = p.
Proof. intro H. unfold update. rewrite H. now destruct (is_captured p). Qed.

Lemma update_when_moving (dt : num) (bh : vec) (p : Particle) :
  is_captured p = false ->
  neqb (norm (vsub bh (pos p))) (Fin 0) = false ->
  update dt bh p =
    let v1 := kicked_vel dt bh p in
    let v2 := if is_photon p then photon_correct v1 else v1 in
    let p1 := vadd (pos p) (vmuls v2 dt) in
    {| pos := p1; vel := v2; mass := mass p; path := path p ++ [p1];
       is_captured := false; is_photon := is_photon p |}.
Proof.
  intros Hc Hr. unfold update. rewrite Hc, Hr. reflexivity.
Qed.

Lemma update_keeps_flag (dt : num) (bh : vec) (p : Particle) :
  is_captured (update dt bh p) = is_captured p.
Proof.
  unfold update. destruct (is_captured p) eqn:Hc; [exact Hc |].
  destruct (neqb _ _); [exact Hc | reflexivity].
Qed.

Lemma update_keeps_kind (dt : num) (bh : vec) (p : Particle) :
  is_photon (update dt bh p) = is_photon p /\ mass (update dt bh p) = mass p.
Proof.
  unfold update. destruct (is_captured p); [now split |].
  destruct (neqb _ _); now split.
Qed.

(** ** The capture test *)

Lemma capture_test_flag (p : Particle) :
  is_captured (capture_test p) =
  is_captured p || nltb (norm (vsub (pos p) black_hole_pos)) schwarzschild_radius.
Proof.
  unfold capture_test. destruct (nltb _ _); simpl.
  - now rewrite orb_true_r.
  - now rewrite orb_false_r.
Qed.

Lemma capture_test_frame (p : Particle) :
  pos (capture_test p) = pos p /\ vel (capture_test p) = vel p /\
  mass (capture_test p) = mass p /\ path (capture_test p) = path p /\
  is_photon (capture_test p) = is_photon p.
Proof. unfold capture_test. destruct (nltb _ _); now repeat split. Qed.

Lemma capture_test_captured (p : Particle) :
  is_captured p = true -> capture_test p = p.
Proof.
  intro H. unfold capture_test. destruct (nltb _ _); [| reflexivity].
  destruct p; simpl in *. now subst.
Qed.

Lemma tick_captured (p : Particle) : is_captured p = true -> tick p = p.
Proof.
  intro H. unfold tick. rewrite (capture_test_captured p H).
  now apply update_when_captured.
Qed.

Lemma ticks_captured (n : nat) (p : Particle) :
  is_captured p = true -> ticks n p = p.
Proof.
  induction n as [| n IH]; intro H; simpl; [reflexivity |].
  rewrite (tick_captured p H). now apply IH.
Qed.

Lemma ticks_add (n m : nat) (p : Particle) :
  ticks (n + m) p = ticks m (ticks n p).
Proof.
  revert p. induction n as [| n IH]; intro p; simpl; [reflexivity | apply IH].
Qed.

Lemma ticks_succ (n : nat) (p : Particle) : ticks (S n) p = tick (ticks n p).
Proof.
  replace (S n) with (n + 1)%nat by lia. now rewrite ticks_add.
Qed.

Lemma run_steps_map (n : nat) (ps : list Particle) :
  run_steps n ps = map (ticks n) ps.
Proof.
  revert ps. induction n as [| n IH]; intro ps; simpl.
  - now rewrite map_id.
  - rewrite IH. unfold step_all. now rewrite map_map.
Qed.

Lemma run_steps_nth (n : nat) (ps : list Particle) (i : nat) :
  nth_error (run_steps n ps) i = option_map (ticks n) (nth_error ps i).
Proof. rewrite run_steps_map. apply nth_error_map. Qed.

Lemma dist_to_bh_vfin (x y : R) :
  norm (vsub (vfin x y) black_hole_pos) = Fin (sqrt (x * x + y * y)).
Proof.
  change (norm (vfin (x - 0) (y - 0)) = Fin (sqrt (x * x + y * y))).
  rewrite norm_vfin. do 2 f_equal. ring.
Qed.

(** A particle that the capture test leaves active is not on the body: the
    horizon radius is positive, so distance [0] would have been caught. *)
Lemma active_after_test_apart (p : Particle) :
  is_captured (capture_test p) = false ->
  neqb (norm (vsub black_hole_pos (pos p))) (Fin 0) = false.
Proof.
  rewrite capture_test_flag. intro H. apply orb_false_iff in H as [_ Hfar].
  destruct (neqb _ _) eqn:E; [| reflexivity].
  apply neqb_true in E as (r & Hr & H0). injection H0 as <-.
  rewrite norm_vsub_swap, Hr, schwarzschild_radius_value in Hfar.
  assert (Hlt : nltb (Fin 0) (Fin (2000 / 225)) = true)
    by (apply nltb_fin; lra).
  congruence.
Qed.

Lemma tick_flag (p : Particle) :
  is_captured (tick p) = is_captured (capture_test p).
Proof. unfold tick. apply update_keeps_flag. Qed.

Lemma tick_active_path (p : Particle) :
  is_captured (tick p) = false ->
  path (tick p) = path p ++ [pos (tick p)].
Proof.
  intro H. rewrite tick_flag in H.
  pose proof (active_after_test_apart p H) as Hr.
  destruct (capture_test_frame p) as (Hpos & _ & _ & Hpath & _).
  unfold tick. rewrite update_when_moving; [| exact H | now rewrite Hpos].
  cbn [path pos]. now rewrite Hpath.
Qed.

Lemma update_path_grows (dt : num) (bh : vec) (p : Particle) :
  exists l, path (update dt bh p) = path p ++ l /\ (length l <= 1)%nat.
Proof.
  unfold update. destruct (is_captured p).
  - exists []. rewrite app_nil_r. split; [reflexivity | simpl; lia].
  - destruct (neqb _ _).
    + exists []. rewrite app_nil_r. split; [reflexivity | simpl; lia].
    + eexists. split; [reflexivity | simpl; lia].
Qed.

Lemma tick_path_grows (p : Particle) :
  exists l, path (tick p) = path p ++ l /\ (length l <= 1)%nat.
Proof.
  unfold tick.
  destruct (update_path_grows TIME_STEP black_hole_pos (capture_test p))
    as (l & Hl & Hlen).
  destruct (capture_test_frame p) as (_ & _ & _ & Hpath & _).
  exists l. now rewrite Hl, Hpath.
Qed.

Lemma ticks_path_grows (n : nat) (p : Particle) :
  exists l, path (ticks n p) = path p ++ l /\ (length l <= n)%nat.
Proof.
  induction n as [| n IH].
  - exists []. simpl. rewrite app_nil_r. split; [reflexivity | lia].
  - rewrite ticks_succ. destruct IH as (l & Hl & Hlen).
    destruct (tick_path_grows (ticks n p)) as (l' & Hl' & Hlen').
    exists (l ++ l'). rewrite Hl', Hl, <- app_assoc.
    split; [reflexivity | rewrite length_app; lia].
Qed.

Lemma ticks_active_before (n k : nat) (p : Particle) :
  is_captured (ticks (n + k) p) = false -> is_captured (ticks n p) = false.
Proof.
  rewrite ticks_add. intro H.
  destruct (is_captured (ticks n p)) eqn:E; [| reflexivity].
  now rewrite (ticks_captured k _ E), E in H.
Qed.

Lemma ticks_active_length (n : nat) (p : Particle) :
  is_captured (ticks n p) = false ->
  length (path (ticks n p)) = (length (path p) + n)%nat.
Proof.
  induction n as [| n IH]; intro H.
  - simpl. lia.
  - assert (Hn : is_captured (ticks n p) = false).
    { apply (ticks_active_before n 1). now replace (n + 1)%nat with (S n) by lia. }
    rewrite ticks_succ in H |- *. rewrite (tick_active_path _ H).
    rewrite length_app, (IH Hn). simpl. lia.
Qed.

(** ** The claims *)

(** C5.  On a captured particle [update] does nothing and fails nowhere: it
    returns the particle as it was, so position, velocity, mass, the photon
    flag, the captured flag and the path are all unchanged. *)
Theorem update_captured_noop (dt : num) (bh : vec) (p : Particle) :
  is_captured p = true ->
  update dt bh p = p.
Proof. apply update_when_captured. Qed.

Lemma update_captured_noop_witness :
  is_captured captured_sample = true /\
  update TIME_STEP black_hole_pos captured_sample = captured_sample.
Proof.
  split; [reflexivity |].
  apply (update_captured_noop TIME_STEP black_hole_pos captured_sample).
  reflexivity.
Defined.

(** C6.  An active particle that sits exactly on the body has [r_mag = 0],
    and [update] returns it unchanged: no velocity change, no position
    change, no path entry, and none of the divisions by [r_mag] is
    evaluated. *)
Theorem update_coincident_noop (dt : num) (p : Particle) (x y : R) :
  is_captured p = false ->
  pos p = vfin x y ->
  norm (vsub (vfin x y) (pos p)) = Fin 0 /\
  update dt (vfin x y) p = p.
Proof.
  intros _ Hpos.
  assert (H0 : norm (vsub (vfin x y) (pos p)) = Fin 0).
  { rewrite Hpos. change (norm (vfin (x - x) (y - y)) = Fin 0).
    replace (x - x) with 0 by ring. replace (y - y) with 0 by ring.
    apply norm_of_zero. }
  split; [exact H0 |].
  apply update_when_coincident. rewrite H0. now apply neqb_fin.
Qed.

Lemma update_coincident_noop_witness :
  is_captured sample_on_body = false /\
  pos sample_on_body = vfin 0 0 /\
  update TIME_STEP (vfin 0 0) sample_on_body = sample_on_body.
Proof.
  split; [reflexivity |]. split; [reflexivity |].
  apply (update_coincident_noop TIME_STEP sample_on_body 0 0); reflexivity.
Defined.

(** C7.  The captured flag never goes back to false: [update] and the
    capture test both keep a true flag, so does any number of ticks, and in
    the driver a particle found captured after [n] passes over the particle
    list is captured after [n + m] passes too. *)
Theorem captured_is_permanent :
  (forall dt bh p, is_captured p = true -> is_captured (update dt bh p) = true) /\
  (forall p, is_captured p = true -> is_captured (capture_test p) = true) /\
  (forall n m p, is_captured (ticks n p) = true ->
                 is_captured (ticks (n + m) p) = true) /\
  (forall ps n m i q, nth_error (run_steps n ps) i = Some q ->
                      is_captured q = true ->
                      nth_error (run_steps (n + m) ps) i = Some q).
Proof.
  repeat split.
  - intros dt bh p H. now rewrite update_keeps_flag.
  - intros p H. rewrite capture_test_flag, H. reflexivity.
  - intros n m p H. rewrite ticks_add. now rewrite ticks_captured.
  - intros ps n m i q Hq Hc. rewrite run_steps_nth in Hq |- *.
    destruct (nth_error ps i) as [p |]; [| discriminate].
    simpl in Hq |- *. injection Hq as <-.
    rewrite ticks_add. now rewrite ticks_captured.
Qed.

Lemma captured_is_permanent_witness :
  is_captured (ticks 0 captured_sample) = true /\
  is_captured (ticks (0 + 5) captured_sample) = true.
Proof.
  split; [reflexivity |].
  apply (proj1 (proj2 (proj2 captured_is_permanent)) 0%nat 5%nat captured_sample).
  reflexivity.
Defined.

Lemma particle_at_8_0_caught : is_captured (capture_test particle_at_8_0) = true.
Proof.
  rewrite capture_test_flag.
  change (pos particle_at_8_0) with (vfin 8 0).
  rewrite dist_to_bh_vfin, schwarzschild_radius_value.
  rewrite (sqrt_of_square (8 * 8 + 0 * 0) 8) by lra.
  apply orb_true_iff. right. apply nltb_fin. lra.
Qed.

Lemma capture_test_by_distance (p : Particle) (x y : R) :
  is_captured p = false ->
  pos p = vfin x y ->
  is_captured (capture_test p) = true <-> sqrt (x * x + y * y) < 2000 / 225.
Proof.
  intros Hc Hpos.
  rewrite capture_test_flag, Hc, Hpos, dist_to_bh_vfin,
    schwarzschild_radius_value.
  simpl orb. apply nltb_fin.
Qed.

(** C4.  The horizon radius is [2*G*M/C^2], here [2000/225].  In every tick
    the driver first runs the capture test on the particle as it stands
    (its position before the step) and only then calls [update].  The test
    touches nothing but the flag, and it turns the flag of an active
    particle to true exactly when the distance of its position from the
    body is strictly below the radius.  A particle starting at [(8, 0)] is
    caught by the first test. *)
Theorem capture_test_before_update :
  schwarzschild_radius = Fin (2000 / 225) /\
  (forall p, tick p = update TIME_STEP black_hole_pos (capture_test p)) /\
  (forall p, pos (capture_test p) = pos p /\ vel (capture_test p) = vel p /\
             mass (capture_test p) = mass p /\ path (capture_test p) = path p /\
             is_photon (capture_test p) = is_photon p) /\
  (forall p, is_captured (capture_test p) =
             is_captured p ||
             nltb (norm (vsub (pos p) black_hole_pos)) schwarzschild_radius) /\
  (forall p, is_captured p = false ->
     (is_captured (capture_test p) = true <->
      nltb (norm (vsub (pos p) black_hole_pos)) schwarzschild_radius = true)) /\
  (forall p x y, is_captured p = false -> pos p = vfin x y ->
     (is_captured (capture_test p) = true <->
      sqrt (x * x + y * y) < 2 * 1 * 1000 / (15 * 15))) /\
  is_captured (capture_test (new_Particle (vfin 8 0) (vfin 0 0) (Fin 1) false))
    = true.
Proof.
  split; [apply schwarzschild_radius_value |].
  split; [reflexivity |].
  split; [apply capture_test_frame |].
  split; [apply capture_test_flag |].
  split; [| split].
  - intros p Hc. rewrite capture_test_flag, Hc. reflexivity.
  - intros p x y Hc Hpos.
    replace (2 * 1 * 1000 / (15 * 15)) with (2000 / 225) by lra.
    now apply capture_test_by_distance.
  - exact particle_at_8_0_caught.
Qed.

Lemma capture_test_before_update_witness :
  is_captured particle_at_8_0 = false /\
  pos particle_at_8_0 = vfin 8 0 /\
  (is_captured (capture_test particle_at_8_0) = true <->
   sqrt (8 * 8 + 0 * 0) < 2 * 1 * 1000 / (15 * 15)).
Proof.
  split; [reflexivity |]. split; [reflexivity |].
  apply (proj1 (proj2 (proj2 (proj2 (proj2 (proj2 capture_test_before_update)))))
           particle_at_8_0 8 0); reflexivity.
Defined.

(** C9.  Set-up resolves an [offset_factor] into the vertical start
    position [r_s * offset_factor], whatever the descriptor holds in that
    place; a descriptor without one keeps its position.  The particle is
    built from the resolved position, which is therefore the first entry of
    its path, and the run is the set-up followed by ticks only: nothing
    resolves a position again. *)
Theorem offset_factor_resolved_at_setup :
  (forall d f, d_offset_factor d = Some f ->
     pos (init_particle d) = (fst (d_pos d), nmul schwarzschild_radius f) /\
     path (init_particle d) = [(fst (d_pos d), nmul schwarzschild_radius f)] /\
     is_captured (init_particle d) = false) /\
  (forall d y, d_offset_factor d = None -> snd (d_pos d) = Some y ->
     pos (init_particle d) = (fst (d_pos d), y) /\
     path (init_particle d) = [(fst (d_pos d), y)]) /\
  (forall descs steps,
     run_simulation_with descs steps =
     map (fun d => ticks steps (init_particle d)) descs) /\
  (forall d n, hd_error (path (ticks n (init_particle d))) =
               Some (pos (init_particle d))).
Proof.
  split; [| split; [| split]].
  - intros d f Hf. unfold init_particle. rewrite Hf. repeat split.
  - intros d y Hf Hy. unfold init_particle. rewrite Hf.
    cbn [to_float]. rewrite Hy. split; reflexivity.
  - intros descs steps. unfold run_simulation_with.
    rewrite run_steps_map. apply map_map.
  - intros d n. destruct (ticks_path_grows n (init_particle d)) as (l & Hl & _).
    rewrite Hl. reflexivity.
Qed.

Lemma offset_factor_resolved_at_setup_witness :
  d_offset_factor photon_descriptor = Some (Fin (15 / 10)) /\
  pos (init_particle photon_descriptor) =
    (Fin (-250), nmul schwarzschild_radius (Fin (15 / 10))).
Proof.
  split; [reflexivity |].
  apply (proj1 offset_factor_resolved_at_setup photon_descriptor (Fin (15 / 10))).
  reflexivity.
Defined.

Lemma orbiter_apart :
  norm (vsub black_hole_pos (pos orbiter)) = Fin 100 /\
  neqb (norm (vsub black_hole_pos (pos orbiter))) (Fin 0) = false.
Proof.
  assert (Hn : norm (vsub black_hole_pos (pos orbiter)) = Fin 100).
  { change (norm (vsub (vfin 0 0) (vfin 100 0)) = Fin 100).
    apply norm_from_origin_x. lra. }
  split; [exact Hn |]. rewrite Hn. apply neqb_fin_false. lra.
Qed.

(** C8.  The path starts as the one-element list holding the initial
    position.  [update] on an active particle that its own test
    [r_mag == 0] finds off the body appends exactly one entry, the new
    position; every operation leaves the old path as a prefix of the new
    one, so nothing is removed or reordered and the first entry stays the
    initial position.  A particle still active after [n] ticks has a path
    of length [1 + n]. *)
Theorem path_append_only :
  (forall x v m ph, path (new_Particle x v m ph) = [x]) /\
  (forall dt bh p, is_captured p = false ->
     neqb (norm (vsub bh (pos p))) (Fin 0) = false ->
     path (update dt bh p) = path p ++ [pos (update dt bh p)]) /\
  (forall dt bh p, exists l,
     path (update dt bh p) = path p ++ l /\ (length l <= 1)%nat) /\
  (forall p, path (capture_test p) = path p) /\
  (forall n p, exists l, path (ticks n p) = path p ++ l) /\
  (forall n x v m ph,
     is_captured (ticks n (new_Particle x v m ph)) = false ->
     length (path (ticks n (new_Particle x v m ph))) = (1 + n)%nat /\
     hd_error (path (ticks n (new_Particle x v m ph))) = Some x).
Proof.
  split; [reflexivity |].
  split; [| split; [| split; [| split]]].
  - intros dt bh p Hc Hr.
    rewrite (update_when_moving dt bh p Hc Hr). reflexivity.
  - apply update_path_grows.
  - intro p. apply capture_test_frame.
  - intros n p. destruct (ticks_path_grows n p) as (l & Hl & _). now exists l.
  - intros n x v m ph Hact. split.
    + now rewrite (ticks_active_length n _ Hact).
    + destruct (ticks_path_grows n (new_Particle x v m ph)) as (l & Hl & _).
      rewrite Hl. reflexivity.
Qed.

Lemma path_append_only_witness :
  is_captured orbiter = false /\
  neqb (norm (vsub black_hole_pos (pos orbiter))) (Fin 0) = false /\
  path (update TIME_STEP black_hole_pos orbiter) =
    path orbiter ++ [pos (update TIME_STEP black_hole_pos orbiter)].
Proof.
  split; [reflexivity |]. split; [exact (proj2 orbiter_apart) |].
  apply (proj1 (proj2 path_append_only) TIME_STEP black_hole_pos orbiter);
    [reflexivity | exact (proj2 orbiter_apart)].
Defined.

(** In binary64 the test [r_mag == 0] also holds for a particle that is
    not on the body but so close to it that the squared distance
    underflows: [update] returns such a particle unchanged. *)
Lemma f64_near_body_skips_step :
  PrimFloat.eqb (fst (F64.pos F64.near_body)) PrimFloat.zero = false /\
  F64.is_captured F64.near_body = false /\
  PrimFloat.eqb
    (F64.norm (F64.vsub F64.black_hole_pos (F64.pos F64.near_body)))
    PrimFloat.zero = true /\
  F64.update F64.TIME_STEP F64.black_hole_pos F64.near_body = F64.near_body.
Proof. vm_compute. repeat split. Qed.

(** C2, as stated, fails: the particle starting at [(8, 0)] is caught by
    the capture test of tick 0, [update] then returns at once, and the path
    keeps its single entry instead of growing to [1 + (0 + 1)]. *)
Lemma no_step_on_capture_tick :
  is_captured particle_at_8_0 = false /\
  is_captured (capture_test particle_at_8_0) = true /\
  tick particle_at_8_0 = capture_test particle_at_8_0 /\
  path (tick particle_at_8_0) = [vfin 8 0] /\
  length (path (ticks (0 + 1) particle_at_8_0)) <> (1 + (0 + 1))%nat.
Proof.
  pose proof particle_at_8_0_caught as Hc.
  assert (Ht : tick particle_at_8_0 = capture_test particle_at_8_0).
  { unfold tick. now apply update_when_captured. }
  assert (Hp : path (tick particle_at_8_0) = [vfin 8 0]).
  { rewrite Ht. destruct (capture_test_frame particle_at_8_0)
      as (_ & _ & _ & -> & _). reflexivity. }
  repeat split; try assumption.
  change (ticks (0 + 1) particle_at_8_0) with (tick particle_at_8_0).
  rewrite Hp. simpl. lia.
Qed.

(** C2, amended.  On the tick whose capture test first sets the flag,
    [update] is already a no-op: the tick changes the flag and nothing
    else, and from then on the particle is frozen.  A particle caught by
    the test of tick [k] (counting from 0) has made [k] steps, so its path
    stays at length [1 + k]. *)
Theorem capture_tick_freezes_path (k : nat) (x v : vec) (m : num) (ph : bool) :
  let p := ticks k (new_Particle x v m ph) in
  is_captured p = false ->
  is_captured (capture_test p) = true ->
  tick p = capture_test p /\
  pos (tick p) = pos p /\ vel (tick p) = vel p /\ path (tick p) = path p /\
  forall j, ticks (k + 1 + j) (new_Particle x v m ph) = tick p /\
            length (path (ticks (k + 1 + j) (new_Particle x v m ph))) = (1 + k)%nat.
Proof.
  intros p Hact Hcap.
  assert (Ht : tick p = capture_test p).
  { unfold tick. now apply update_when_captured. }
  destruct (capture_test_frame p) as (Hpos & Hvel & _ & Hpath & _).
  rewrite Ht. repeat split; try assumption.
  - rewrite <- Ht. rewrite !ticks_add. simpl ticks.
    now apply ticks_captured; rewrite Ht.
  - rewrite !ticks_add. simpl ticks. fold p.
    rewrite ticks_captured by now rewrite Ht.
    rewrite Ht, Hpath. unfold p.
    now rewrite (ticks_active_length k _ Hact).
Qed.

Lemma capture_tick_freezes_path_witness :
  is_captured (ticks 0 particle_at_8_0) = false /\
  is_captured (capture_test (ticks 0 particle_at_8_0)) = true /\
  length (path (ticks (0 + 1 + 3) particle_at_8_0)) = (1 + 0)%nat.
Proof.
  split; [reflexivity |]. split; [exact particle_at_8_0_caught |].
  apply (capture_tick_freezes_path 0 (vfin 8 0) (vfin 0 0) (Fin 1) false
           eq_refl particle_at_8_0_caught).
Defined.

(** ** The velocity update *)

(** With mass [1.0], the constructor's default and the mass of every
    particle the driver builds, the two mass factors leave the force as it
    is: the acceleration is [(G*M/r_mag^2) * (r_vec/r_mag)]. *)
Lemma acceleration_unit_mass (bh : vec) (p : Particle) :
  mass p = Fin 1 ->
  acceleration_of bh p =
  smulv (ndiv (nmul G M) (nmul (norm (vsub bh (pos p))) (norm (vsub bh (pos p)))))
        (vdivs (vsub bh (pos p)) (norm (vsub bh (pos p)))).
Proof.
  intro Hm. unfold acceleration_of, r_vec_of. rewrite Hm, nmul_one_r.
  apply vdivs_one.
Qed.

Lemma kicked_vel_unit_mass (dt : num) (bh : vec) (p : Particle) :
  mass p = Fin 1 -> kicked_vel dt bh p = euler_velocity dt bh p.
Proof.
  intro Hm. unfold kicked_vel, euler_velocity.
  now rewrite (acceleration_unit_mass bh p Hm).
Qed.

(** The Euler velocity on finite data, given the distance [r]. *)
Lemma euler_velocity_vfin (h px py vx vy bx by_ r : R) (p : Particle) :
  pos p = vfin px py -> vel p = vfin vx vy ->
  r <> 0 ->
  norm (vsub (vfin bx by_) (pos p)) = Fin r ->
  euler_velocity (Fin h) (vfin bx by_) p =
  vfin (vx + 1 * 1000 / (r * r) * ((bx - px) / r) * h)
       (vy + 1 * 1000 / (r * r) * ((by_ - py) / r) * h).
Proof.
  intros Hpos Hvel Hr Hn.
  unfold euler_velocity. rewrite Hn, Hpos, Hvel. unfold G, M.
  cbn [nmul]. rewrite ndiv_fin by nra.
  change (vsub (vfin bx by_) (vfin px py)) with (vfin (bx - px) (by_ - py)).
  unfold vdivs, vfin. cbn [fst snd]. rewrite !ndiv_fin by exact Hr.
  reflexivity.
Qed.

(** The speed correction on finite data, given the norm [n]. *)
Lemma photon_correct_vfin (a b n : R) :
  norm (vfin a b) = Fin n -> n <> 0 ->
  photon_correct (vfin a b) = vfin (a / n * 15) (b / n * 15).
Proof.
  intros Hn Hn0. unfold photon_correct. rewrite Hn.
  unfold vdivs, vfin, vmuls, C. cbn [fst snd].
  rewrite !ndiv_fin by exact Hn0. reflexivity.
Qed.

Lemma photon_correct_zero : photon_correct (vfin 0 0) = (NaN, NaN).
Proof.
  unfold photon_correct. rewrite norm_of_zero.
  unfold vdivs, vmuls. cbn [fst snd vfin]. now rewrite ndiv_zero.
Qed.

(** The state after an [update] that gets past both guards, for a particle
    of mass [1.0], with the velocity written by the Euler formula. *)
Lemma update_velocity_position (dt : num) (bh : vec) (p : Particle) :
  is_captured p = false ->
  neqb (norm (vsub bh (pos p))) (Fin 0) = false ->
  mass p = Fin 1 ->
  vel (update dt bh p) =
    (if is_photon p then photon_correct (euler_velocity dt bh p)
     else euler_velocity dt bh p) /\
  pos (update dt bh p) = vadd (pos p) (vmuls (vel (update dt bh p)) dt).
Proof.
  intros Hc Hr Hm. rewrite (update_when_moving dt bh p Hc Hr).
  cbn [vel pos]. rewrite (kicked_vel_unit_mass dt bh p Hm).
  split; reflexivity.
Qed.

(** One step from [(10, 0)]: the body at distance [10] pulls with
    acceleration [10], so the time step [0.1] takes [1] off the horizontal
    velocity. *)
Lemma kick_at_10_0 (vx vy : R) (ph : bool) :
  let p := new_Particle (vfin 10 0) (vfin vx vy) (Fin 1) ph in
  neqb (norm (vsub black_hole_pos (pos p))) (Fin 0) = false /\
  euler_velocity TIME_STEP black_hole_pos p = vfin (vx - 1) vy /\
  kicked_vel TIME_STEP black_hole_pos p = vfin (vx - 1) vy.
Proof.
  intro p.
  assert (Hn : norm (vsub black_hole_pos (pos p)) = Fin 10).
  { change (norm (vsub (vfin 0 0) (vfin 10 0)) = Fin 10).
    apply norm_from_origin_x. lra. }
  assert (Hr : neqb (norm (vsub black_hole_pos (pos p))) (Fin 0) = false).
  { rewrite Hn. apply neqb_fin_false. lra. }
  assert (Hv : euler_velocity TIME_STEP black_hole_pos p = vfin (vx - 1) vy).
  { unfold TIME_STEP, black_hole_pos.
    rewrite (euler_velocity_vfin (1 / 10) 10 0 vx vy 0 0 10 p);
      [| reflexivity | reflexivity | lra | exact Hn].
    unfold vfin. f_equal; f_equal; field. }
  repeat split; try assumption.
  now rewrite (kicked_vel_unit_mass TIME_STEP black_hole_pos p eq_refl).
Qed.

Lemma norm_3_4 : norm (vfin 3 4) = Fin 5.
Proof. rewrite norm_vfin. f_equal. apply sqrt_of_square; lra. Qed.

Lemma photon_correct_3_4 : photon_correct (vfin 3 4) = vfin 9 12.
Proof.
  rewrite (photon_correct_vfin 3 4 5 norm_3_4) by lra.
  unfold vfin. f_equal; f_equal; lra.
Qed.

(** C1, as stated, fails on photons: the photon at [(10, 0)] with velocity
    [(4, 4)] is active and away from the body, the Euler formula gives the
    velocity [(3, 4)], and [update] leaves it with [(9, 12)]. *)
Lemma photon_velocity_not_euler :
  is_captured photon_3_4 = false /\
  neqb (norm (vsub black_hole_pos (pos photon_3_4))) (Fin 0) = false /\
  euler_velocity TIME_STEP black_hole_pos photon_3_4 = vfin 3 4 /\
  vel (update TIME_STEP black_hole_pos photon_3_4) = vfin 9 12 /\
  vel (update TIME_STEP black_hole_pos photon_3_4) <>
    euler_velocity TIME_STEP black_hole_pos photon_3_4.
Proof.
  destruct (kick_at_10_0 4 4 true) as (Hr & He & _). fold photon_3_4 in Hr, He.
  replace (4 - 1) with 3 in He by lra.
  assert (Hv : vel (update TIME_STEP black_hole_pos photon_3_4) = vfin 9 12).
  { destruct (update_velocity_position TIME_STEP black_hole_pos photon_3_4)
      as [Hv _]; try reflexivity; try assumption.
    rewrite Hv, He. apply photon_correct_3_4. }
  repeat split; try assumption.
  rewrite Hv, He. intro H. injection H as H _. lra.
Qed.

(** The mass does not cancel in binary64.  With mass [2^1020] the product
    [G*M*mass] overflows and the first step of the particle at [(100, 0)]
    leaves the velocity [(-inf, nan)]; with mass [1.0] and with mass [3.0]
    the new horizontal velocities differ in the last digit. *)
Lemma f64_mass_does_not_cancel :
  F64.vel (F64.update F64.TIME_STEP F64.black_hole_pos F64.heavy_orbiter)
    = (PrimFloat.neg_infinity, PrimFloat.nan) /\
  PrimFloat.eqb
    (fst (F64.vel (F64.update F64.TIME_STEP F64.black_hole_pos F64.unit_orbiter)))
    (fst (F64.vel (F64.update F64.TIME_STEP F64.black_hole_pos F64.triple_orbiter)))
    = false.
Proof. vm_compute. split; reflexivity. Qed.

(** C1, amended.  For an active particle with [r_mag != 0] and mass [1.0]
    (the constructor's default, and the mass of every particle the driver
    builds), [update] computes the velocity
    [velocity + (G*M/r_mag^2) * (r_vec/r_mag) * dt].  A particle that is
    not a photon gets exactly this velocity; for a photon it is then
    rescaled by the speed correction.  In both cases the position becomes
    [position + velocity * dt] with the new velocity. *)
Theorem update_is_euler_step (dt : num) (bh : vec) (p : Particle) :
  is_captured p = false ->
  neqb (norm (vsub bh (pos p))) (Fin 0) = false ->
  mass p = Fin 1 ->
  vel (update dt bh p) =
    (if is_photon p then photon_correct (euler_velocity dt bh p)
     else euler_velocity dt bh p) /\
  pos (update dt bh p) = vadd (pos p) (vmuls (vel (update dt bh p)) dt).
Proof. apply update_velocity_position. Qed.

Lemma update_is_euler_step_witness :
  is_captured orbiter = false /\
  neqb (norm (vsub black_hole_pos (pos orbiter))) (Fin 0) = false /\
  mass orbiter = Fin 1 /\
  vel (update TIME_STEP black_hole_pos orbiter) =
    euler_velocity TIME_STEP black_hole_pos orbiter /\
  pos (update TIME_STEP black_hole_pos orbiter) =
    vadd (pos orbiter)
         (vmuls (vel (update TIME_STEP black_hole_pos orbiter)) TIME_STEP).
Proof.
  split; [reflexivity |].
  split; [exact (proj2 orbiter_apart) |].
  split; [reflexivity |].
  apply (update_is_euler_step TIME_STEP black_hole_pos orbiter).
  - reflexivity.
  - exact (proj2 orbiter_apart).
  - reflexivity.
Defined.

(** ** The photon speed correction *)

(** The velocity of a photon after an [update] that gets past both guards:
    the speed correction of the velocity as the gravity update left it,
    with the division by its norm unguarded. *)
Lemma photon_update_velocity (dt : num) (bh : vec) (p : Particle) :
  is_captured p = false ->
  neqb (norm (vsub bh (pos p))) (Fin 0) = false ->
  is_photon p = true ->
  vel (update dt bh p) =
  vmuls (vdivs (kicked_vel dt bh p) (norm (kicked_vel dt bh p))) C.
Proof.
  intros Hc Hr Hph. rewrite (update_when_moving dt bh p Hc Hr).
  cbn [vel]. rewrite Hph. reflexivity.
Qed.

(** a computed norm [0]: both components are divided by [0] *)
Lemma photon_correct_zero_norm (v : vec) :
  neqb (norm v) (Fin 0) = true -> photon_correct v = (NaN, NaN).
Proof.
  intro H. apply neqb_true in H as (r & Hr & H0). injection H0 as <-.
  unfold photon_correct. rewrite Hr, vdivs_zero. reflexivity.
Qed.

(** a computed norm that is a non-zero number *)
Lemma photon_correct_nonzero_norm (v : vec) :
  is_finite (norm v) = true -> neqb (norm v) (Fin 0) = false ->
  exists a b n, v = vfin a b /\ norm v = Fin n /\ 0 < n /\
                photon_correct v = vfin (a / n * 15) (b / n * 15).
Proof.
  intros Hfin Hnz. destruct (norm v) as [n |] eqn:Hn; [| discriminate].
  destruct (norm_fin_inv v n Hn) as (a & b & -> & _ & Hpos).
  assert (Hn0 : n <> 0).
  { intro E. subst n. rewrite (proj2 (neqb_fin 0 0) eq_refl) in Hnz.
    discriminate. }
  exists a, b, n. repeat split; try lra.
  now apply photon_correct_vfin.
Qed.


(** In binary64 the speed is not exactly [C] on ordinary photons either:
    after its first tick the first photon of [PARTICLES] has speed
    [14.999999999999998], the double just below [15]. *)
Lemma f64_first_photon_speed :
  F64.is_captured (F64.tick F64.first_photon) = false /\
  F64.norm (F64.vel (F64.tick F64.first_photon)) = PrimFloat.next_down F64.C /\
  PrimFloat.eqb (F64.norm (F64.vel (F64.tick F64.first_photon))) F64.C = false.
Proof. vm_compute. repeat split. Qed.




(** C10, as stated, fails in binary64: a velocity that is not zero can
    have the norm [0].  The photon at rest [2^500] away from the body is
    not captured and not on the body; the gravity update leaves it a
    horizontal velocity that is not [0] but whose square underflows, the
    norm is [0], and the unguarded division leaves the velocity
    [(-inf, nan)]. *)
Lemma f64_nonzero_velocity_zero_norm :
  F64.is_photon F64.far_photon = true /\
  F64.is_captured (F64.capture_test F64.far_photon) = false /\
  PrimFloat.eqb
    (F64.norm (F64.vsub F64.black_hole_pos (F64.pos F64.far_photon)))
    PrimFloat.zero = false /\
  PrimFloat.eqb
    (fst (F64.kicked_vel F64.TIME_STEP F64.black_hole_pos F64.far_photon))
    PrimFloat.zero = false /\
  PrimFloat.eqb
    (F64.norm (F64.kicked_vel F64.TIME_STEP F64.black_hole_pos F64.far_photon))
    PrimFloat.zero = true /\
  F64.vel (F64.tick F64.far_photon) = (PrimFloat.neg_infinity, PrimFloat.nan).
Proof. vm_compute. repeat split. Qed.

(** C10, amended.  In a photon's step the speed correction divides the
    velocity left by the gravity update by its norm, as the program
    computes it, with no test of that norm.  The precondition of the
    division is on the computed norm: when it is [0], as it is for the
    zero vector, the corrected velocity is not finite in either component;
    when it is a non-zero number, the corrected velocity is finite. *)
Theorem photon_clamp_division_unguarded :
  (forall dt bh p,
     is_captured p = false ->
     neqb (norm (vsub bh (pos p))) (Fin 0) = false ->
     is_photon p = true ->
     vel (update dt bh p) =
     vmuls (vdivs (kicked_vel dt bh p) (norm (kicked_vel dt bh p))) C) /\
  (forall v, neqb (norm v) (Fin 0) = true ->
     is_finite (fst (photon_correct v)) = false /\
     is_finite (snd (photon_correct v)) = false) /\
  (forall v, is_finite (norm v) = true -> neqb (norm v) (Fin 0) = false ->
     vfinite (photon_correct v) = true) /\
  neqb (norm (vfin 0 0)) (Fin 0) = true /\
  photon_correct (vfin 0 0) = (NaN, NaN).
Proof.
  split; [exact photon_update_velocity |].
  split; [| split; [| split]].
  - intros v Hz. rewrite (photon_correct_zero_norm v Hz). now split.
  - intros v Hfin Hnz.
    destruct (photon_correct_nonzero_norm v Hfin Hnz)
      as (a & b & n & _ & _ & _ & ->).
    reflexivity.
  - rewrite norm_of_zero. now apply neqb_fin.
  - exact photon_correct_zero.
Qed.

Lemma norm_3_4_nonzero : neqb (norm (vfin 3 4)) (Fin 0) = false.
Proof. rewrite norm_3_4. apply neqb_fin_false. lra. Qed.

Lemma norm_3_4_finite : is_finite (norm (vfin 3 4)) = true.
Proof. now rewrite norm_3_4. Qed.

Lemma photon_clamp_division_unguarded_witness :
  is_finite (norm (vfin 3 4)) = true /\
  neqb (norm (vfin 3 4)) (Fin 0) = false /\
  vfinite (photon_correct (vfin 3 4)) = true.
Proof.
  split; [exact norm_3_4_finite |]. split; [exact norm_3_4_nonzero |].
  apply (proj1 (proj2 (proj2 photon_clamp_division_unguarded)) (vfin 3 4)
           norm_3_4_finite norm_3_4_nonzero).
Defined.

(** ** Further properties of the integrator and of the driver *)

Lemma ticks_keeps_kind (n : nat) (p : Particle) :
  mass (ticks n p) = mass p /\ is_photon (ticks n p) = is_photon p.
Proof.
  induction n as [| n [IHm IHp]]; [now split |].
  rewrite ticks_succ. unfold tick.
  destruct (update_keeps_kind TIME_STEP black_hole_pos (capture_test (ticks n p)))
    as [Hp Hm].
  destruct (capture_test_frame (ticks n p)) as (_ & _ & Hm' & _ & Hp').
  split; congruence.
Qed.

(** X1.  Neither the capture test nor [update] ever writes the mass or the
    photon flag: every particle of the run keeps the mass and the kind it
    was built with, whatever happens to it. *)
Theorem mass_and_kind_never_change (n : nat) (ps : list Particle) :
  (forall p, mass (ticks n p) = mass p /\ is_photon (ticks n p) = is_photon p) /\
  map mass (run_steps n ps) = map mass ps /\
  map is_photon (run_steps n ps) = map is_photon ps.
Proof.
  split; [intro p; apply ticks_keeps_kind |].
  rewrite run_steps_map, !map_map.
  split; apply map_ext; intro p; apply ticks_keeps_kind.
Qed.

(** X2.  The driver treats the particles one by one: a pass keeps their
    number and order, the particle at index [i] after [n] passes is the
    particle at index [i] ticked [n] times on its own, running a joined
    list is running the two parts, and [n + m] passes are [n] passes
    followed by [m]. *)
Theorem particles_evolve_independently :
  (forall n ps, length (run_steps n ps) = length ps) /\
  (forall n ps i,
     nth_error (run_steps n ps) i = option_map (ticks n) (nth_error ps i)) /\
  (forall n ps qs,
     run_steps n (ps ++ qs) = run_steps n ps ++ run_steps n qs) /\
  (forall n m ps, run_steps (n + m) ps = run_steps m (run_steps n ps)) /\
  (forall descs n,
     length (run_simulation_with descs n) = length descs).
Proof.
  repeat split.
  - intros n ps. now rewrite run_steps_map, length_map.
  - apply run_steps_nth.
  - intros n ps qs. rewrite !run_steps_map. apply map_app.
  - intros n m ps. rewrite !run_steps_map, map_map.
    apply map_ext. intro p. apply ticks_add.
  - intros descs n. unfold run_simulation_with.
    now rewrite run_steps_map, !length_map.
Qed.

Lemma tick_path_end (p : Particle) (d : vec) :
  last (path p) d = pos p -> last (path (tick p)) d = pos (tick p).
Proof.
  intro H. destruct (is_captured (tick p)) eqn:E.
  - rewrite tick_flag in E. unfold tick.
    rewrite (update_when_captured _ _ _ E).
    destruct (capture_test_frame p) as (-> & _ & _ & -> & _). exact H.
  - rewrite (tick_active_path p E). apply last_last.
Qed.

(** X3.  The last entry of the path is the current position.  This holds
    for a new particle and every tick keeps it, so the point drawn at
    [pos] is always the end of the drawn path. *)
Theorem path_ends_at_position (n : nat) (p : Particle) (d : vec) :
  last (path p) d = pos p ->
  last (path (ticks n p)) d = pos (ticks n p).
Proof.
  intro H. induction n as [| n IH]; [exact H |].
  rewrite ticks_succ. now apply tick_path_end.
Qed.

Lemma path_ends_at_position_witness :
  last (path orbiter) (vfin 0 0) = pos orbiter /\
  last (path (ticks 3 orbiter)) (vfin 0 0) = pos (ticks 3 orbiter).
Proof.
  split; [reflexivity |].
  apply (path_ends_at_position 3 orbiter (vfin 0 0)). reflexivity.
Defined.

Lemma tick_when_caught (p : Particle) :
  is_captured (tick p) = true -> tick p = capture_test p.
Proof.
  intro H. rewrite tick_flag in H. unfold tick.
  now apply update_when_captured.
Qed.

Lemma ticks_captured_length (n : nat) (p : Particle) :
  is_captured p = false ->
  is_captured (ticks n p) = true ->
  (length (path (ticks n p)) < length (path p) + n)%nat.
Proof.
  revert p. induction n as [| n IH]; intros p Hp Hn.
  - simpl in Hn. congruence.
  - simpl ticks in *. destruct (is_captured (tick p)) eqn:E.
    + rewrite (ticks_captured n _ E), (tick_when_caught p E).
      destruct (capture_test_frame p) as (_ & _ & _ & -> & _). lia.
    + specialize (IH (tick p) E Hn).
      rewrite (tick_active_path p E), length_app in IH. simpl in IH. lia.
Qed.

(** X4.  The path length tells whether a particle is still active: after
    [n] ticks a particle has at most [1 + n] path entries, and it has
    exactly [1 + n] if and only if no capture test has caught it. *)
Theorem path_length_tells_capture (n : nat) (x v : vec) (m : num) (ph : bool) :
  (length (path (ticks n (new_Particle x v m ph))) <= 1 + n)%nat /\
  (is_captured (ticks n (new_Particle x v m ph)) = false <->
   length (path (ticks n (new_Particle x v m ph))) = (1 + n)%nat).
Proof.
  set (p := new_Particle x v m ph).
  split.
  - destruct (ticks_path_grows n p) as (l & Hl & Hlen).
    rewrite Hl, length_app. simpl. lia.
  - split.
    + intro H. now rewrite (ticks_active_length n p H).
    + intro H. destruct (is_captured (ticks n p)) eqn:E; [| reflexivity].
      pose proof (ticks_captured_length n p eq_refl E) as Hlt.
      simpl in Hlt. lia.
Qed.

(** X5.  A driver tick has two outcomes only.  Either the particle is
    captured, and the tick has changed nothing but the flag; or it is
    active, and it has made a full step: the path has one more entry, the
    new position, which is the old position plus the new velocity times
    the time step.  The [r_mag == 0] return of [update] is never taken in
    the driver: the capture test has caught such a particle before. *)
Theorem tick_captures_or_steps (p : Particle) :
  (is_captured (tick p) = true /\
   pos (tick p) = pos p /\ vel (tick p) = vel p /\ path (tick p) = path p) \/
  (is_captured (tick p) = false /\
   path (tick p) = path p ++ [pos (tick p)] /\
   pos (tick p) = vadd (pos p) (vmuls (vel (tick p)) TIME_STEP)).
Proof.
  destruct (is_captured (tick p)) eqn:E.
  - left. rewrite (tick_when_caught p E).
    destruct (capture_test_frame p) as (Hpos & Hvel & _ & Hpath & _).
    repeat split; assumption.
  - right. split; [reflexivity |]. split; [now apply tick_active_path |].
    rewrite tick_flag in E.
    pose proof (active_after_test_apart p E) as Hr.
    destruct (capture_test_frame p) as (Hpos & _).
    unfold tick. rewrite update_when_moving; [| exact E | now rewrite Hpos].
    cbn [pos vel]. now rewrite Hpos.
Qed.

(** X6.  A captured particle lies inside the horizon: the flag is set only
    by a capture test that found the position closer to the body than the
    horizon radius, and the particle has not moved since. *)
Theorem captured_inside_horizon (n : nat) (p : Particle) :
  is_captured p = false ->
  is_captured (ticks n p) = true ->
  nltb (norm (vsub (pos (ticks n p)) black_hole_pos)) schwarzschild_radius = true.
Proof.
  revert p. induction n as [| n IH]; intros p Hp Hn.
  - simpl in Hn. congruence.
  - simpl ticks in *. destruct (is_captured (tick p)) eqn:E.
    + rewrite (ticks_captured n _ E), (tick_when_caught p E).
      rewrite tick_flag, capture_test_flag, Hp in E. simpl in E.
      destruct (capture_test_frame p) as (-> & _). exact E.
    + now apply IH.
Qed.

Lemma captured_inside_horizon_witness :
  is_captured particle_at_8_0 = false /\
  is_captured (ticks 1 particle_at_8_0) = true /\
  nltb (norm (vsub (pos (ticks 1 particle_at_8_0)) black_hole_pos))
       schwarzschild_radius = true.
Proof.
  assert (H : is_captured (ticks 1 particle_at_8_0) = true).
  { change (ticks 1 particle_at_8_0) with (tick particle_at_8_0).
    rewrite tick_flag. exact particle_at_8_0_caught. }
  split; [reflexivity |]. split; [exact H |].
  apply (captured_inside_horizon 1 particle_at_8_0 eq_refl H).
Defined.

(** *** Not-a-number states *)

Lemma update_with_nan_acceleration (dt : num) (bh : vec) (p : Particle) :
  is_captured p = false ->
  neqb (norm (vsub bh (pos p))) (Fin 0) = false ->
  acceleration_of bh p = (NaN, NaN) ->
  vel (update dt bh p) = (NaN, NaN) /\
  pos (update dt bh p) = (NaN, NaN) /\
  path (update dt bh p) = path p ++ [(NaN, NaN)].
Proof.
  intros Hc Hr Ha. rewrite (update_when_moving dt bh p Hc Hr).
  unfold kicked_vel. rewrite Ha.
  change (vmuls (NaN, NaN) dt) with ((NaN, NaN) : vec).
  rewrite vadd_nan_r. cbn [vel pos path].
  assert (Hv : (if is_photon p then photon_correct (NaN, NaN) else (NaN, NaN))
               = ((NaN, NaN) : vec)) by now destruct (is_photon p).
  rewrite Hv. change (vmuls (NaN, NaN) dt) with ((NaN, NaN) : vec).
  rewrite vadd_nan_r. repeat split.
Qed.

(** X7.  Mass [0] is not rejected: [update] divides the force by it.  For
    an active particle away from the body the force is then [0] or [nan],
    the acceleration is [nan], and one [update] leaves velocity and
    position [nan] and appends that position to the path. *)
Theorem massless_particle_turns_nan (dt : num) (bh : vec) (p : Particle) :
  is_captured p = false ->
  neqb (norm (vsub bh (pos p))) (Fin 0) = false ->
  mass p = Fin 0 ->
  vel (update dt bh p) = (NaN, NaN) /\
  pos (update dt bh p) = (NaN, NaN) /\
  path (update dt bh p) = path p ++ [(NaN, NaN)].
Proof.
  intros Hc Hr Hm. apply update_with_nan_acceleration; try assumption.
  unfold acceleration_of. rewrite Hm. apply vdivs_zero.
Qed.

Lemma massless_sample_apart :
  neqb (norm (vsub black_hole_pos (pos massless_sample))) (Fin 0) = false.
Proof.
  change (pos massless_sample) with (vfin 10 0).
  rewrite norm_from_origin_x by lra. apply neqb_fin_false. lra.
Qed.

Lemma massless_particle_turns_nan_witness :
  is_captured massless_sample = false /\
  neqb (norm (vsub black_hole_pos (pos massless_sample))) (Fin 0) = false /\
  mass massless_sample = Fin 0 /\
  vel (update TIME_STEP black_hole_pos massless_sample) = (NaN, NaN).
Proof.
  split; [reflexivity |]. split; [exact massless_sample_apart |].
  split; [reflexivity |].
  apply (massless_particle_turns_nan TIME_STEP black_hole_pos massless_sample
           eq_refl massless_sample_apart eq_refl).
Defined.

Lemma tick_of_nan_position (p : Particle) :
  is_captured p = false -> vfinite (pos p) = false ->
  is_captured (tick p) = false /\
  vel (tick p) = (NaN, NaN) /\ pos (tick p) = (NaN, NaN) /\
  path (tick p) = path p ++ [(NaN, NaN)].
Proof.
  intros Hc Hnan.
  assert (Ht : capture_test p = p).
  { unfold capture_test.
    now rewrite (norm_of_nan _ (vsub_of_nan_l _ black_hole_pos Hnan)). }
  pose proof (norm_of_nan _ (vsub_of_nan_r black_hole_pos _ Hnan)) as Hn.
  unfold tick. rewrite Ht. split; [now rewrite update_keeps_flag |].
  apply update_with_nan_acceleration; [exact Hc | now rewrite Hn |].
  unfold acceleration_of, r_vec_of. rewrite Hn.
  cbn [nmul]. rewrite ndiv_nan_r. reflexivity.
Qed.

(** X8.  A [nan] in the position never goes away and hides the particle
    from the capture test.  A descriptor whose vertical position is [None]
    and that has no [offset_factor] gives such a particle; an active
    particle with a [nan] position component stays active for ever, its
    path grows by one entry in every tick, and from the first tick on its
    position and velocity are [nan] in both components. *)
Theorem nan_position_is_permanent :
  (forall d, d_offset_factor d = None -> snd (d_pos d) = None ->
     vfinite (pos (init_particle d)) = false /\
     is_captured (init_particle d) = false) /\
  (forall n p, is_captured p = false -> vfinite (pos p) = false ->
     is_captured (ticks n p) = false /\
     length (path (ticks n p)) = (length (path p) + n)%nat /\
     ((1 <= n)%nat ->
      pos (ticks n p) = (NaN, NaN) /\ vel (ticks n p) = (NaN, NaN))).
Proof.
  split.
  - intros d Hf Hy. unfold init_particle. rewrite Hf. cbn [new_Particle pos is_captured].
    rewrite Hy. unfold vfinite. cbn [snd to_float is_finite].
    now rewrite andb_false_r.
  - intros n. induction n as [| n IH]; intros p Hc Hnan.
    + simpl. repeat split; try assumption; lia.
    + destruct (tick_of_nan_position p Hc Hnan) as (Hc' & Hv & Hp & Hpath).
      assert (Hnan' : vfinite (pos (tick p)) = false) by now rewrite Hp.
      destruct (IH (tick p) Hc' Hnan') as (Hflag & Hlen & Hpos).
      simpl ticks. split; [exact Hflag |]. split.
      * rewrite Hlen, Hpath, length_app. simpl. lia.
      * intros _. destruct n as [| n]; [simpl; now split |].
        apply Hpos. lia.
Qed.

Lemma nan_position_is_permanent_witness :
  d_offset_factor unresolved_descriptor = None /\
  snd (d_pos unresolved_descriptor) = None /\
  vfinite (pos (init_particle unresolved_descriptor)) = false /\
  is_captured (ticks 2 (init_particle unresolved_descriptor)) = false.
Proof.
  split; [reflexivity |]. split; [reflexivity |].
  pose proof (proj1 nan_position_is_permanent unresolved_descriptor
                eq_refl eq_refl) as [Hnan Hc].
  split; [exact Hnan |].
  apply (proj2 nan_position_is_permanent 2%nat
           (init_particle unresolved_descriptor) Hc Hnan).
Defined.

(** X13.  The set-up passes no mass to the constructor, so a descriptor
    cannot choose one: the particle at index [i] of a run is the particle
    built from descriptor [i], ticked on its own, and at every time it has
    mass [1.0] and the photon flag of its descriptor. *)
Theorem run_particles_have_unit_mass (descs : list descriptor) (n i : nat)
    (d : descriptor) :
  nth_error descs i = Some d ->
  exists q, nth_error (run_simulation_with descs n) i = Some q /\
            q = ticks n (init_particle d) /\
            mass q = Fin 1 /\ is_photon q = d_is_photon d.
Proof.
  intro Hd. exists (ticks n (init_particle d)).
  unfold run_simulation_with.
  rewrite run_steps_nth, nth_error_map, Hd.
  destruct (ticks_keeps_kind n (init_particle d)) as [Hm Hk].
  repeat split.
  - rewrite Hm. unfold init_particle. reflexivity.
  - rewrite Hk. unfold init_particle. reflexivity.
Qed.

Lemma run_particles_have_unit_mass_witness :
  nth_error PARTICLES 5 = Some photon_descriptor /\
  exists q, nth_error (run_simulation_with PARTICLES 4) 5 = Some q /\
            q = ticks 4 (init_particle photon_descriptor) /\
            mass q = Fin 1 /\ is_photon q = d_is_photon photon_descriptor.
Proof.
  split; [reflexivity |].
  apply (run_particles_have_unit_mass PARTICLES 4 5 photon_descriptor).
  reflexivity.
Defined.
